(** * gi/docstring.py: documentation string generator for gi

    A shallow embedding of [gi/docstring.py] and the properties of its
    signature formatter and generator registry.

    Python objects supplied by the introspection library ([._gi]) are modelled
    as records of the answers of their accessor methods; Python's exceptions
    are modelled by the [result] type; the module global
    [_generate_doc_string_func] is modelled by explicit state passing. *)

From Stdlib Require Import String ZArith List.
From stdpp Require Import base decidable option list gmap strings.

(** ** Exceptions *)

Inductive exn : Type :=
| AttributeError
| TypeError
| Exception (msg : string).

Inductive result (A : Type) : Type :=
| Ok (a : A)
| Raise (e : exn).

Arguments Ok {A} a.
Arguments Raise {A} e.

(** Propagation of an exception through a sequence of statements, with
    stdpp's notation [x ← m; k]. *)
#[global] Instance result_bind : MBind result := λ A B k m,
  match m with
  | Ok a => k a
  | Raise e => Raise e
  end.

(** Evaluating the elements of a generator expression in order; the first
    exception ends the evaluation. *)
Fixpoint map_result {A B : Type} (f : A → result B) (l : list A) : result (list B) :=
  match l with
  | [] => Ok []
  | x :: l' => y ← f x; ys ← map_result f l'; Ok (y :: ys)
  end.

(** ** The objects of [._gi] *)

(** Modelled from the spec: the enumeration [Direction] is declared in [._gi];
    its members are the three the source names, and [other] stands for any
    further value [get_direction] may answer. *)
Module Direction.
Inductive t : Type :=
| IN
| OUT
| INOUT
| other (value : Z).
End Direction.

#[global] Instance Direction_eq_dec : EqDecision Direction.t.
Proof. solve_decision. Defined.

(** Modelled from the spec: the enumeration [TypeTag] is declared in [._gi];
    its members are the twenty-two the source's table names, and
    [unrecognized] stands for any further value [get_tag] may answer. *)
Module TypeTag.
Inductive t : Type :=
| VOID | BOOLEAN
| INT8 | UINT8 | INT16 | UINT16 | INT32 | UINT32 | INT64 | UINT64
| FLOAT | DOUBLE
| GTYPE | UTF8 | FILENAME | ARRAY | INTERFACE | GLIST | GSLIST | GHASH
| ERROR | UNICHAR
| unrecognized (value : Z).
End TypeTag.

#[global] Instance TypeTag_eq_dec : EqDecision TypeTag.t.
Proof. solve_decision. Defined.

(** The info object [get_interface] answers: [get_name] is [None] or a
    string (possibly empty), [get_namespace] a string. *)
Module BaseInfo.
Record t : Type := mk {
  get_name : option string;
  get_namespace : string
}.
End BaseInfo.

(** A type descriptor.  [get_interface] answers [None] when the descriptor
    has no nested interface. *)
Module TypeInfo.
Record t : Type := mk {
  get_tag : TypeTag.t;
  get_tag_as_string : string;
  get_array_length : Z;
  get_interface : option BaseInfo.t
}.
End TypeInfo.

(** An argument descriptor.  The companion indices are [-1] when absent. *)
Module ArgInfo.
Record t : Type := mk {
  get_name : string;
  get_direction : Direction.t;
  get_type : TypeInfo.t;
  may_be_null : bool;
  is_optional : bool;
  get_destroy : Z;
  get_closure : Z
}.
End ArgInfo.

(** The class of a callable descriptor, as [isinstance] sees it: [VFuncInfo]
    and [FunctionInfo] are the two classes the source imports, [OtherInfo] any
    other class. *)
Inductive info_class : Type :=
| VFuncInfo
| FunctionInfo
| OtherInfo.

#[global] Instance info_class_eq_dec : EqDecision info_class.
Proof. solve_decision. Defined.

Module CallableInfo.
Record t : Type := mk {
  class : info_class;
  get_name : string;
  get_arguments : list ArgInfo.t;
  is_method : bool;
  is_constructor : bool
}.
End CallableInfo.

Definition isinstance (info : CallableInfo.t) (c : info_class) : bool :=
  bool_decide (CallableInfo.class info = c).

(** ** The generator registry (lines 30-56) *)

(** A value that may be stored in the slot: Python's [None], or a function
    from an info object to a doc string that may raise. *)
Definition generator : Type := CallableInfo.t → result string.

(** The module's global state. *)
Record module_state : Type := mk_state {
  _generate_doc_string_func : option generator
}.

Definition set_doc_string_generator (func : option generator)
    (st : module_state) : module_state :=
  {| _generate_doc_string_func := func |}.

Definition get_doc_string_generator (st : module_state) : option generator :=
  _generate_doc_string_func st.

(** Calling [None] raises [TypeError]. *)
Definition generate_doc_string (st : module_state) (info : CallableInfo.t)
    : result string :=
  match _generate_doc_string_func st with
  | Some func => func info
  | None => Raise TypeError
  end.

(** ** [split_function_info_args] (lines 59-75) *)

(** [x in (a, b)] on a tuple of enumeration members. *)
Definition in_tuple (x : Direction.t) (tuple : list Direction.t) : bool :=
  bool_decide (x ∈ tuple).

(** The body of the loop of lines 69-74, on the two lists built so far. *)
Definition split_body (lists : list ArgInfo.t * list ArgInfo.t)
    (arg : ArgInfo.t) : list ArgInfo.t * list ArgInfo.t :=
  let '(in_args, out_args) := lists in
  let direction := ArgInfo.get_direction arg in
  let in_args :=
    if in_tuple direction [Direction.IN; Direction.INOUT]
    then in_args ++ [arg] else in_args in
  let out_args :=
    if in_tuple direction [Direction.OUT; Direction.INOUT]
    then out_args ++ [arg] else out_args in
  (in_args, out_args).

Definition split_function_info_args (info : CallableInfo.t)
    : list ArgInfo.t * list ArgInfo.t :=
  fold_left split_body (CallableInfo.get_arguments info) ([], []).

(** ** The type-tag table (lines 78-100) *)

(** The Python classes the table's values are, with their [__name__]. *)
Inductive py_type : Type :=
| py_bool | py_int | py_float | py_list | py_dict | py_str.

Definition __name__ (ty : py_type) : string :=
  match ty with
  | py_bool => "bool"
  | py_int => "int"
  | py_float => "float"
  | py_list => "list"
  | py_dict => "dict"
  | py_str => "str"
  end.

(** The dict literal, in the order of the source; a value is a class or
    Python's [None]. *)
Definition _type_tag_to_py_type : list (TypeTag.t * option py_type) :=
  [ (TypeTag.BOOLEAN, Some py_bool);
    (TypeTag.INT8, Some py_int);
    (TypeTag.UINT8, Some py_int);
    (TypeTag.INT16, Some py_int);
    (TypeTag.UINT16, Some py_int);
    (TypeTag.INT32, Some py_int);
    (TypeTag.UINT32, Some py_int);
    (TypeTag.INT64, Some py_int);
    (TypeTag.UINT64, Some py_int);
    (TypeTag.FLOAT, Some py_float);
    (TypeTag.DOUBLE, Some py_float);
    (TypeTag.GLIST, Some py_list);
    (TypeTag.GSLIST, Some py_list);
    (TypeTag.ARRAY, Some py_list);
    (TypeTag.GHASH, Some py_dict);
    (TypeTag.UTF8, Some py_str);
    (TypeTag.FILENAME, Some py_str);
    (TypeTag.UNICHAR, Some py_str);
    (TypeTag.INTERFACE, None);
    (TypeTag.GTYPE, None);
    (TypeTag.ERROR, None);
    (TypeTag.VOID, None) ].

(** [d.get(key, default)] on a dict whose literal has distinct keys. *)
Fixpoint dict_get {V : Type} (d : list (TypeTag.t * V)) (key : TypeTag.t)
    (default : V) : V :=
  match d with
  | [] => default
  | (k, v) :: d' => if decide (k = key) then v else dict_get d' key default
  end.

(** ** [_get_pytype_hint] (lines 103-118) *)

(** Truth value of [get_name]'s answer: [None] and the empty string are
    false. *)
Definition truthy (s : option string) : bool :=
  match s with
  | None => false
  | Some s => negb (String.eqb s "")
  end.

(** A class is true and has a [__name__], so the first test holds exactly
    when [py_type] is not [None].  [iface.get_name()] on [None] raises
    [AttributeError]. *)
Definition _get_pytype_hint (gi_type : TypeInfo.t) : result string :=
  let type_tag := TypeInfo.get_tag gi_type in
  let py_type := dict_get _type_tag_to_py_type type_tag None in
  match py_type with
  | Some ty => Ok (__name__ ty)
  | None =>
      if decide (type_tag = TypeTag.INTERFACE) then
        match TypeInfo.get_interface gi_type with
        | None => Raise AttributeError
        | Some iface =>
            let info_name := BaseInfo.get_name iface in
            if negb (truthy info_name) then
              Ok (TypeInfo.get_tag_as_string gi_type)
            else
              Ok (BaseInfo.get_namespace iface +:+ "." +:+ default "" info_name)
        end
      else Ok (TypeInfo.get_tag_as_string gi_type)
  end.

(** ** [_generate_callable_info_function_signature] (lines 121-163) *)

(** The implicit leading parameter (lines 124-131). *)
Definition implicit_args (info : CallableInfo.t) : list string :=
  if isinstance info VFuncInfo then ["self"]
  else if isinstance info FunctionInfo then
    if CallableInfo.is_method info then ["self"]
    else if CallableInfo.is_constructor info then ["cls"]
    else []
  else [].

(** The body of the loop of lines 138-141, on the pair
    [(ignore_indices, user_data_indices)] built so far. *)
Definition companion_body (sets : gset Z * gset Z) (arg : ArgInfo.t)
    : gset Z * gset Z :=
  let '(ignore_indices, user_data_indices) := sets in
  let ignore_indices := ignore_indices ∪ {[ ArgInfo.get_destroy arg ]} in
  let ignore_indices :=
    ignore_indices ∪ {[ TypeInfo.get_array_length (ArgInfo.get_type arg) ]} in
  let user_data_indices := user_data_indices ∪ {[ ArgInfo.get_closure arg ]} in
  (ignore_indices, user_data_indices).

(** The two index sets, built by one pass over [in_args] before any
    argument is formatted (lines 136-141). *)
Definition companion_indices (in_args : list ArgInfo.t) : gset Z * gset Z :=
  fold_left companion_body in_args (∅, ∅).

(** The loop over [enumerate(in_args)] (lines 143-155), from index [i] on,
    appending to [in_args_strs]. *)
Fixpoint in_args_loop (ignore_indices user_data_indices : gset Z) (i : nat)
    (in_args : list ArgInfo.t) (in_args_strs : list string)
    : result (list string) :=
  match in_args with
  | [] => Ok in_args_strs
  | arg :: in_args' =>
      if bool_decide (Z.of_nat i ∈ ignore_indices) then
        in_args_loop ignore_indices user_data_indices (S i) in_args' in_args_strs
      else
        let argstr := ArgInfo.get_name arg in
        hint ← _get_pytype_hint (ArgInfo.get_type arg);
        let argstr :=
          if bool_decide (hint ∈ ["void"]) then argstr
          else argstr +:+ (":" +:+ hint) in
        let argstr :=
          if ArgInfo.may_be_null arg
             || bool_decide (Z.of_nat i ∈ user_data_indices)
          then argstr +:+ "=None"
          else if ArgInfo.is_optional arg then argstr +:+ "=<optional>"
          else argstr in
        in_args_loop ignore_indices user_data_indices (S i) in_args'
          (in_args_strs ++ [argstr])
  end.

(** The list [in_args_strs] as it is when the loop has ended (lines
    124-155). *)
Definition positional_args (info : CallableInfo.t) (in_args : list ArgInfo.t)
    : result (list string) :=
  let in_args_strs := implicit_args info in
  let '(ignore_indices, user_data_indices) := companion_indices in_args in
  in_args_loop ignore_indices user_data_indices 0 in_args in_args_strs.

(** One element of the generator expression of lines 159-160. *)
Definition out_arg_str (arg : ArgInfo.t) : result string :=
  hint ← _get_pytype_hint (ArgInfo.get_type arg);
  Ok ((ArgInfo.get_name arg +:+ ":") +:+ hint).

(** Default doc string generator. *)
Definition _generate_callable_info_function_signature (info : CallableInfo.t)
    : result string :=
  let '(in_args, out_args) := split_function_info_args info in
  in_args_strs ← positional_args info in_args;
  let in_args_str := String.concat ", " in_args_strs in
  match out_args with
  | _ :: _ =>
      out_strs ← map_result out_arg_str out_args;
      let out_args_str := String.concat ", " out_strs in
      Ok (CallableInfo.get_name info +:+ "(" +:+ in_args_str +:+ ") -> "
          +:+ out_args_str)
  | [] =>
      Ok (CallableInfo.get_name info +:+ "(" +:+ in_args_str +:+ ")")
  end.

(** The module's state when its body has run: line 31, then line 166. *)
Definition module_initial : module_state :=
  {| _generate_doc_string_func := None |}.

Definition module_loaded : module_state :=
  set_doc_string_generator (Some _generate_callable_info_function_signature)
    module_initial.

(** ** Test descriptors *)

Definition int_type : TypeInfo.t :=
  TypeInfo.mk TypeTag.INT32 "gint32" (-1) None.
Definition utf8_type : TypeInfo.t :=
  TypeInfo.mk TypeTag.UTF8 "utf8" (-1) None.
Definition boolean_type : TypeInfo.t :=
  TypeInfo.mk TypeTag.BOOLEAN "gboolean" (-1) None.
Definition void_type : TypeInfo.t :=
  TypeInfo.mk TypeTag.VOID "void" (-1) None.
Definition widget_type : TypeInfo.t :=
  TypeInfo.mk TypeTag.INTERFACE "interface" (-1)
    (Some (BaseInfo.mk (Some "Widget") "Gtk")).
Definition array_type (length_index : Z) : TypeInfo.t :=
  TypeInfo.mk TypeTag.ARRAY "array" length_index None.

(** An argument without companions, neither nullable nor optional. *)
Definition plain_arg (name : string) (d : Direction.t) (ty : TypeInfo.t)
    : ArgInfo.t :=
  ArgInfo.mk name d ty false false (-1) (-1).

Definition plain_function (name : string) (args : list ArgInfo.t)
    : CallableInfo.t :=
  CallableInfo.mk FunctionInfo name args false false.

(** A function with a callback whose user data is the argument at
    position 1. *)
Definition user_data_arg : ArgInfo.t :=
  plain_arg "user_data" Direction.IN void_type.

Definition closure_info : CallableInfo.t :=
  plain_function "name"
    [ArgInfo.mk "data" Direction.IN widget_type false false (-1) 1;
     user_data_arg].

(** A method with an in-argument, an array with its length, and two
    out-arguments, one of them in-out. *)
Definition method_info : CallableInfo.t :=
  CallableInfo.mk FunctionInfo "read"
    [ArgInfo.mk "path" Direction.IN utf8_type true false (-1) (-1);
     plain_arg "n" Direction.IN int_type;
     plain_arg "items" Direction.INOUT (array_type 1);
     plain_arg "ok" Direction.OUT void_type]
    true false.

(** Two functions that differ in the companion indices of the out-argument
    [buffer] only. *)
Definition out_info (destroy closure length_index : Z) : CallableInfo.t :=
  plain_function "fill"
    [plain_arg "x" Direction.IN int_type;
     ArgInfo.mk "buffer" Direction.OUT (array_type length_index) false false
       destroy closure].

(** ** Notions the properties are stated with *)

(** An argument of direction [IN] or [INOUT]. *)
Definition is_in (arg : ArgInfo.t) : Prop :=
  ArgInfo.get_direction arg = Direction.IN
  ∨ ArgInfo.get_direction arg = Direction.INOUT.

(** An argument of direction [OUT] or [INOUT]. *)
Definition is_out (arg : ArgInfo.t) : Prop :=
  ArgInfo.get_direction arg = Direction.OUT
  ∨ ArgInfo.get_direction arg = Direction.INOUT.

#[global] Instance is_in_dec arg : Decision (is_in arg).
Proof. unfold is_in. apply _. Defined.

#[global] Instance is_out_dec arg : Decision (is_out arg).
Proof. unfold is_out. apply _. Defined.

(** A direction that is one of the three the enumeration declares. *)
Definition known_direction (d : Direction.t) : Prop :=
  d = Direction.IN ∨ d = Direction.OUT ∨ d = Direction.INOUT.

(** [enumerate(l)] counting from [i]. *)
Fixpoint enumerate_from {A : Type} (i : nat) (l : list A) : list (nat * A) :=
  match l with
  | [] => []
  | x :: l' => (i, x) :: enumerate_from (S i) l'
  end.

(** The positions of [in_args], from [i] on, that are not in
    [ignore_indices], each with its argument. *)
Definition kept_from (ignore_indices : gset Z) (i : nat)
    (in_args : list ArgInfo.t) : list (nat * ArgInfo.t) :=
  filter (λ p, Z.of_nat p.1 ∉ ignore_indices) (enumerate_from i in_args).

(** How many positions before [i] are not in [ignore_indices]. *)
Definition rank (ignore_indices : gset Z) (i : nat) : nat :=
  length (filter (λ j, Z.of_nat j ∉ ignore_indices) (seq 0 i)).

(** The rendering of an in-argument at position [i] as the specification
    words it: the name, the type hint unless it is void, the default
    marker. *)
Definition rendered_in_arg (user_data_indices : gset Z) (i : nat)
    (arg : ArgInfo.t) (hint : string) : string :=
  ArgInfo.get_name arg
  +:+ (if decide (hint = "void") then "" else ":" +:+ hint)
  +:+ (if ArgInfo.may_be_null arg then "=None"
       else if decide (Z.of_nat i ∈ user_data_indices) then "=None"
       else if ArgInfo.is_optional arg then "=<optional>"
       else "").

(** The rendering of an out-argument as the specification words it. *)
Definition rendered_out_arg (arg : ArgInfo.t) (hint : string) : string :=
  ArgInfo.get_name arg +:+ ":" +:+ hint.

(** The type hint of [arg] resolves to [hint]. *)
Definition hint_of (arg : ArgInfo.t) (hint : string) : Prop :=
  _get_pytype_hint (ArgInfo.get_type arg) = Ok hint.

(** Two type descriptors that differ at most in the array-length index. *)
Definition same_type_but_length (t1 t2 : TypeInfo.t) : Prop :=
  TypeInfo.get_tag t1 = TypeInfo.get_tag t2
  ∧ TypeInfo.get_tag_as_string t1 = TypeInfo.get_tag_as_string t2
  ∧ TypeInfo.get_interface t1 = TypeInfo.get_interface t2.

(** Two argument descriptors that are equal, or have direction [OUT] and
    differ at most in the destroy-notify, closure and array-length indices. *)
Definition same_but_out_companions (a1 a2 : ArgInfo.t) : Prop :=
  a1 = a2
  ∨ (ArgInfo.get_direction a1 = Direction.OUT
     ∧ ArgInfo.get_direction a2 = Direction.OUT
     ∧ ArgInfo.get_name a1 = ArgInfo.get_name a2
     ∧ ArgInfo.may_be_null a1 = ArgInfo.may_be_null a2
     ∧ ArgInfo.is_optional a1 = ArgInfo.is_optional a2
     ∧ same_type_but_length (ArgInfo.get_type a1) (ArgInfo.get_type a2)).

(** Two callable descriptors that differ solely in the companion indices of
    arguments of direction [OUT]. *)
Definition differ_in_out_companions (info1 info2 : CallableInfo.t) : Prop :=
  CallableInfo.class info1 = CallableInfo.class info2
  ∧ CallableInfo.get_name info1 = CallableInfo.get_name info2
  ∧ CallableInfo.is_method info1 = CallableInfo.is_method info2
  ∧ CallableInfo.is_constructor info1 = CallableInfo.is_constructor info2
  ∧ Forall2 same_but_out_companions
      (CallableInfo.get_arguments info1) (CallableInfo.get_arguments info2).

(** A type descriptor with the interface tag and no interface object. *)
Definition no_interface (gi_type : TypeInfo.t) : Prop :=
  TypeInfo.get_tag gi_type = TypeTag.INTERFACE
  ∧ TypeInfo.get_interface gi_type = None.

#[global] Instance no_interface_dec gi_type : Decision (no_interface gi_type).
Proof. unfold no_interface. apply _. Defined.

(** A companion index that is no position of a list of [n] arguments: the
    sentinel, another negative number, or a number past the end. *)
Definition out_of_range (n : nat) (z : Z) : Prop :=
  (z < 0 ∨ Z.of_nat n ≤ z)%Z.

(** An argument of direction [INOUT]. *)
Definition is_inout (arg : ArgInfo.t) : Prop :=
  ArgInfo.get_direction arg = Direction.INOUT.

#[global] Instance is_inout_dec arg : Decision (is_inout arg).
Proof. unfold is_inout. apply _. Defined.

(** The calls [set_doc_string_generator(func)] for each element of [funcs],
    one after the other. *)
Definition set_each (funcs : list (option generator)) (st : module_state)
    : module_state :=
  fold_left (λ st func, set_doc_string_generator func st) funcs st.

(** A callback at position 1 whose destroy notify is the argument at position
    2 of the whole argument sequence, after an out-argument at position 0. *)
Definition shifted_info : CallableInfo.t :=
  plain_function "watch"
    [plain_arg "handle" Direction.OUT int_type;
     ArgInfo.mk "callback" Direction.IN widget_type false false 2 (-1);
     plain_arg "notify" Direction.IN widget_type].

(** A function whose companion indices are the sentinel or past the end. *)
Definition far_info : CallableInfo.t :=
  plain_function "far"
    [ArgInfo.mk "a" Direction.IN (array_type 7) false false (-1) (-1);
     ArgInfo.mk "b" Direction.IN int_type false false 2 (-1)].

(** ** The scenarios of the specification *)

Example scenario_foo :
  _generate_callable_info_function_signature
    (plain_function "foo" [plain_arg "x" Direction.IN int_type])
  = Ok "foo(x:int)".
Proof. vm_compute. reflexivity. Qed.

Example scenario_method :
  _generate_callable_info_function_signature
    (CallableInfo.mk FunctionInfo "name"
       [ArgInfo.mk "y" Direction.IN utf8_type true false (-1) (-1)] true false)
  = Ok "name(self, y:str=None)".
Proof. vm_compute. reflexivity. Qed.

Example scenario_user_data :
  _generate_callable_info_function_signature
    (plain_function "name"
       [ArgInfo.mk "data" Direction.IN widget_type false false (-1) 1;
        plain_arg "user_data" Direction.IN void_type])
  = Ok "name(data:Gtk.Widget, user_data=None)".
Proof. vm_compute. reflexivity. Qed.

Example scenario_out :
  _generate_callable_info_function_signature
    (plain_function "name" [plain_arg "result" Direction.OUT boolean_type])
  = Ok "name() -> result:bool".
Proof. vm_compute. reflexivity. Qed.

(** An array whose length is the later argument [n]: [n] is left out. *)
Example scenario_array_length :
  _generate_callable_info_function_signature
    (plain_function "name"
       [plain_arg "items" Direction.IN (array_type 1);
        plain_arg "n" Direction.IN int_type])
  = Ok "name(items:list)".
Proof. vm_compute. reflexivity. Qed.

(** A destroy notify that comes before the argument that names it. *)
Example scenario_destroy_before :
  _generate_callable_info_function_signature
    (plain_function "name"
       [plain_arg "notify" Direction.IN widget_type;
        ArgInfo.mk "callback" Direction.IN widget_type false false 0 (-1)])
  = Ok "name(callback:Gtk.Widget)".
Proof. vm_compute. reflexivity. Qed.

(** An interface tag without an interface object: [iface.get_name()] is an
    attribute access on [None]. *)
Example scenario_no_interface :
  _get_pytype_hint (TypeInfo.mk TypeTag.INTERFACE "interface" (-1) None)
  = Raise AttributeError.
Proof. reflexivity. Qed.

(** ** [split_function_info_args] *)

Lemma in_tuple_in d :
  in_tuple d [Direction.IN; Direction.INOUT] = true
  ↔ d = Direction.IN ∨ d = Direction.INOUT.
Proof.
  unfold in_tuple. rewrite bool_decide_eq_true.
  rewrite !elem_of_cons, elem_of_nil. tauto.
Qed.

Lemma in_tuple_out d :
  in_tuple d [Direction.OUT; Direction.INOUT] = true
  ↔ d = Direction.OUT ∨ d = Direction.INOUT.
Proof.
  unfold in_tuple. rewrite bool_decide_eq_true.
  rewrite !elem_of_cons, elem_of_nil. tauto.
Qed.

(** One turn of the loop appends the argument to the lists its direction
    selects. *)
Lemma split_body_filter in_args out_args arg :
  split_body (in_args, out_args) arg
  = (in_args ++ filter is_in [arg], out_args ++ filter is_out [arg]).
Proof.
  unfold split_body.
  destruct (in_tuple _ [Direction.IN; _]) eqn:Hi;
    destruct (in_tuple _ [Direction.OUT; _]) eqn:Ho.
  all: try (apply in_tuple_in in Hi); try (apply in_tuple_out in Ho).
  all: try (apply not_true_iff_false in Hi; rewrite in_tuple_in in Hi).
  all: try (apply not_true_iff_false in Ho; rewrite in_tuple_out in Ho).
  all: rewrite !filter_cons, !filter_nil.
  all: destruct (decide (is_in arg)), (decide (is_out arg)); try done.
  all: by rewrite ?app_nil_r.
Qed.

(** The loop, started on any two lists. *)
Lemma split_loop_filter args in_args out_args :
  fold_left split_body args (in_args, out_args)
  = (in_args ++ filter is_in args, out_args ++ filter is_out args).
Proof.
  revert in_args out_args.
  induction args as [|arg args IH]; intros in_args out_args; cbn [fold_left].
  - by rewrite !filter_nil, !app_nil_r.
  - rewrite split_body_filter, IH.
    rewrite <- !app_assoc.
    by rewrite <- !filter_app.
Qed.

Lemma split_filter info :
  split_function_info_args info
  = (filter is_in (CallableInfo.get_arguments info),
     filter is_out (CallableInfo.get_arguments info)).
Proof. unfold split_function_info_args. by rewrite split_loop_filter. Qed.

(** C5: [split_function_info_args] returns the pair of the arguments of
    direction IN or INOUT and of the arguments of direction OUT or INOUT,
    each list in the order of the argument sequence (it is the sequence
    filtered, hence a sublist of it), and an INOUT argument is in both. *)
Theorem split_function_info_args_partition (info : CallableInfo.t) :
  let args := CallableInfo.get_arguments info in
  let in_list := (split_function_info_args info).1 in
  let out_list := (split_function_info_args info).2 in
  in_list = filter is_in args
  ∧ out_list = filter is_out args
  ∧ (∀ arg, arg ∈ in_list ↔ arg ∈ args ∧ is_in arg)
  ∧ (∀ arg, arg ∈ out_list ↔ arg ∈ args ∧ is_out arg)
  ∧ sublist in_list args
  ∧ sublist out_list args
  ∧ (∀ arg, arg ∈ args → ArgInfo.get_direction arg = Direction.INOUT →
       arg ∈ in_list ∧ arg ∈ out_list).
Proof.
  intros args in_list out_list. subst in_list out_list.
  rewrite split_filter. cbn [fst snd]. fold args.
  split_and!; try done.
  - intros arg. rewrite list_elem_of_filter. tauto.
  - intros arg. rewrite list_elem_of_filter. tauto.
  - apply sublist_filter.
  - apply sublist_filter.
  - intros arg Harg Hdir.
    rewrite !list_elem_of_filter. unfold is_in, is_out. tauto.
Qed.

(** When every element is selected by one of the two filters, the two
    filtered lists have together at least as many elements as the list. *)
Lemma length_filter_cover {A : Type} (P Q : A → Prop)
    `{!∀ x, Decision (P x)} `{!∀ x, Decision (Q x)} (l : list A) :
  Forall (λ x, P x ∨ Q x) l →
  (length l ≤ length (filter P l) + length (filter Q l))%nat.
Proof.
  induction 1 as [|x l Hx _ IH]; [done|].
  rewrite !filter_cons.
  destruct (decide (P x)), (decide (Q x)); simpl; try lia.
  tauto.
Qed.

Lemma known_direction_in_or_out arg :
  known_direction (ArgInfo.get_direction arg) ↔ is_in arg ∨ is_out arg.
Proof. unfold known_direction, is_in, is_out. tauto. Qed.

(** C10: each of the two lists of [split_function_info_args] takes every
    argument at most once (it is a sublist of the argument sequence, without
    duplicates when the sequence has none); when all directions are IN, OUT
    or INOUT every argument is in one of the two lists, which together have
    at least as many elements as the sequence; an argument of any other
    direction is in neither list. *)
Theorem split_function_info_args_cover (info : CallableInfo.t) :
  let args := CallableInfo.get_arguments info in
  let in_list := (split_function_info_args info).1 in
  let out_list := (split_function_info_args info).2 in
  (sublist in_list args ∧ sublist out_list args)
  ∧ (NoDup args → NoDup in_list ∧ NoDup out_list)
  ∧ (Forall (λ arg, known_direction (ArgInfo.get_direction arg)) args →
       (∀ arg, arg ∈ args → arg ∈ in_list ∨ arg ∈ out_list)
       ∧ (length args ≤ length in_list + length out_list)%nat)
  ∧ (∀ arg, ¬ known_direction (ArgInfo.get_direction arg) →
       (arg ∉ in_list) ∧ (arg ∉ out_list)).
Proof.
  intros args in_list out_list. subst in_list out_list.
  rewrite split_filter. cbn [fst snd]. fold args.
  split_and!.
  - apply sublist_filter.
  - apply sublist_filter.
  - intros Hnd. split; by apply NoDup_filter.
  - intros Hall. split.
    + intros arg Harg.
      rewrite Forall_forall in Hall. specialize (Hall arg Harg).
      apply known_direction_in_or_out in Hall.
      rewrite !list_elem_of_filter. tauto.
    + apply length_filter_cover.
      eapply Forall_impl; [exact Hall|].
      intros arg. by rewrite known_direction_in_or_out.
  - intros arg Hother.
    rewrite known_direction_in_or_out in Hother.
    rewrite !list_elem_of_filter. tauto.
Qed.

(** ** [_get_pytype_hint] *)

(** The tags the table maps to a class, and the class's name. *)
Lemma table_mapped tag ty :
  dict_get _type_tag_to_py_type tag None = Some ty →
  tag ∈ [TypeTag.BOOLEAN; TypeTag.INT8; TypeTag.UINT8; TypeTag.INT16;
         TypeTag.UINT16; TypeTag.INT32; TypeTag.UINT32; TypeTag.INT64;
         TypeTag.UINT64; TypeTag.FLOAT; TypeTag.DOUBLE; TypeTag.GLIST;
         TypeTag.GSLIST; TypeTag.ARRAY; TypeTag.GHASH; TypeTag.UTF8;
         TypeTag.FILENAME; TypeTag.UNICHAR].
Proof.
  destruct tag; cbn; intros Hget; try discriminate Hget.
  all: rewrite !elem_of_cons; tauto.
Qed.

(** The tags the table maps to [None] or does not have. *)
Lemma table_unmapped tag :
  dict_get _type_tag_to_py_type tag None = None
  ↔ tag = TypeTag.INTERFACE ∨ tag = TypeTag.GTYPE ∨ tag = TypeTag.ERROR
    ∨ tag = TypeTag.VOID ∨ ∃ value, tag = TypeTag.unrecognized value.
Proof.
  split.
  - destruct tag; cbn; intros Hget; try discriminate Hget; eauto 10.
  - intros [->|[->|[->|[->|[value ->]]]]]; reflexivity.
Qed.

(** A tag the table maps to a class resolves to the class's name, whatever
    else the descriptor answers. *)
Lemma hint_mapped gi_type ty :
  dict_get _type_tag_to_py_type (TypeInfo.get_tag gi_type) None = Some ty →
  _get_pytype_hint gi_type = Ok (__name__ ty).
Proof. unfold _get_pytype_hint. intros Hget. rewrite Hget. reflexivity. Qed.

(** A tag without a class that is not the interface tag resolves to the
    tag's string. *)
Lemma hint_fallback gi_type :
  dict_get _type_tag_to_py_type (TypeInfo.get_tag gi_type) None = None →
  TypeInfo.get_tag gi_type ≠ TypeTag.INTERFACE →
  _get_pytype_hint gi_type = Ok (TypeInfo.get_tag_as_string gi_type).
Proof.
  unfold _get_pytype_hint. intros Hget Hne.
  rewrite Hget. by rewrite decide_False.
Qed.

(** The interface tag with an interface object at hand. *)
Lemma hint_interface gi_type iface :
  TypeInfo.get_tag gi_type = TypeTag.INTERFACE →
  TypeInfo.get_interface gi_type = Some iface →
  _get_pytype_hint gi_type
  = Ok (match BaseInfo.get_name iface with
        | Some name =>
            if decide (name = "") then TypeInfo.get_tag_as_string gi_type
            else BaseInfo.get_namespace iface +:+ "." +:+ name
        | None => TypeInfo.get_tag_as_string gi_type
        end).
Proof.
  unfold _get_pytype_hint. intros Htag Hiface.
  assert (dict_get _type_tag_to_py_type (TypeInfo.get_tag gi_type) None = None)
    as Hget by (apply table_unmapped; tauto).
  rewrite Hget, Hiface. rewrite decide_True by done.
  destruct (BaseInfo.get_name iface) as [name|]; cbn [truthy negb]; [|done].
  destruct (String.eqb_spec name "") as [Hname|Hname]; cbn [negb default].
  - by rewrite decide_True.
  - by rewrite decide_False.
Qed.

(** C4: the type hint of a descriptor is the mapped class's name for the
    tags the table maps (bool, int, float, list, dict, str); for the
    interface tag it is Namespace.Name of the interface object, or the tag's
    string when the interface's name is absent or empty; for gtype, error,
    void and any unrecognized tag it is the tag's string. *)
Theorem get_pytype_hint_cases (gi_type : TypeInfo.t) :
  let tag := TypeInfo.get_tag gi_type in
  let hint := _get_pytype_hint gi_type in
  (tag = TypeTag.BOOLEAN → hint = Ok "bool")
  ∧ (tag ∈ [TypeTag.INT8; TypeTag.UINT8; TypeTag.INT16; TypeTag.UINT16;
            TypeTag.INT32; TypeTag.UINT32; TypeTag.INT64; TypeTag.UINT64] →
       hint = Ok "int")
  ∧ (tag ∈ [TypeTag.FLOAT; TypeTag.DOUBLE] → hint = Ok "float")
  ∧ (tag ∈ [TypeTag.GLIST; TypeTag.GSLIST; TypeTag.ARRAY] → hint = Ok "list")
  ∧ (tag = TypeTag.GHASH → hint = Ok "dict")
  ∧ (tag ∈ [TypeTag.UTF8; TypeTag.FILENAME; TypeTag.UNICHAR] →
       hint = Ok "str")
  ∧ (tag = TypeTag.INTERFACE →
       ∀ iface, TypeInfo.get_interface gi_type = Some iface →
         hint = Ok (match BaseInfo.get_name iface with
                    | Some name =>
                        if decide (name = "")
                        then TypeInfo.get_tag_as_string gi_type
                        else BaseInfo.get_namespace iface +:+ "." +:+ name
                    | None => TypeInfo.get_tag_as_string gi_type
                    end))
  ∧ (tag = TypeTag.GTYPE ∨ tag = TypeTag.ERROR ∨ tag = TypeTag.VOID
     ∨ (∃ value, tag = TypeTag.unrecognized value) →
       hint = Ok (TypeInfo.get_tag_as_string gi_type)).
Proof.
  intros tag hint. subst tag hint.
  split_and!.
  - intros Htag. by rewrite (hint_mapped gi_type py_bool); [|rewrite Htag].
  - rewrite !elem_of_cons, elem_of_nil.
    intros Htag. rewrite (hint_mapped gi_type py_int); [done|].
    destruct Htag as [->|[->|[->|[->|[->|[->|[->|[->|[]]]]]]]]]; reflexivity.
  - rewrite !elem_of_cons, elem_of_nil.
    intros Htag. rewrite (hint_mapped gi_type py_float); [done|].
    destruct Htag as [->|[->|[]]]; reflexivity.
  - rewrite !elem_of_cons, elem_of_nil.
    intros Htag. rewrite (hint_mapped gi_type py_list); [done|].
    destruct Htag as [->|[->|[->|[]]]]; reflexivity.
  - intros Htag. by rewrite (hint_mapped gi_type py_dict); [|rewrite Htag].
  - rewrite !elem_of_cons, elem_of_nil.
    intros Htag. rewrite (hint_mapped gi_type py_str); [done|].
    destruct Htag as [->|[->|[->|[]]]]; reflexivity.
  - intros Htag iface Hiface. by apply hint_interface.
  - intros Htag. apply hint_fallback.
    + apply table_unmapped. tauto.
    + destruct Htag as [->|[->|[->|[value ->]]]]; discriminate.
Qed.

(** C7, as amended: for a descriptor whose tag the table maps to no class,
    and whose [get_interface] answers an interface object when the tag is
    the interface tag, the resolver returns a string and raises nothing: the
    tag's string when the tag is not the interface tag, and when the
    interface's name is absent or empty. *)
Theorem get_pytype_hint_unmapped (gi_type : TypeInfo.t) :
  dict_get _type_tag_to_py_type (TypeInfo.get_tag gi_type) None = None →
  (TypeInfo.get_tag gi_type = TypeTag.INTERFACE →
     is_Some (TypeInfo.get_interface gi_type)) →
  ∃ hint,
    _get_pytype_hint gi_type = Ok hint
    ∧ (TypeInfo.get_tag gi_type ≠ TypeTag.INTERFACE →
         hint = TypeInfo.get_tag_as_string gi_type)
    ∧ (∀ iface, TypeInfo.get_interface gi_type = Some iface →
         BaseInfo.get_name iface = None ∨ BaseInfo.get_name iface = Some "" →
         hint = TypeInfo.get_tag_as_string gi_type).
Proof.
  intros Hnone Hiface.
  destruct (decide (TypeInfo.get_tag gi_type = TypeTag.INTERFACE)) as [Htag|Htag].
  - destruct (Hiface Htag) as [iface Hsome].
    eexists. split; [by apply hint_interface|]. split; [done|].
    intros iface' Hsome' Hname.
    assert (iface' = iface) as -> by congruence.
    destruct Hname as [->| ->]; [done|]. by rewrite decide_True.
  - exists (TypeInfo.get_tag_as_string gi_type).
    split; [by apply hint_fallback|]. done.
Qed.

(** An unrecognized tag, and an interface whose name is empty. *)
Lemma get_pytype_hint_unmapped_witness :
  (∃ hint,
     _get_pytype_hint (TypeInfo.mk (TypeTag.unrecognized 99) "unknown" (-1) None)
     = Ok hint
     ∧ (TypeTag.unrecognized 99 ≠ TypeTag.INTERFACE → hint = "unknown")
     ∧ (∀ iface, None = Some iface →
          BaseInfo.get_name iface = None ∨ BaseInfo.get_name iface = Some "" →
          hint = "unknown"))
  ∧ (∃ hint,
     _get_pytype_hint
       (TypeInfo.mk TypeTag.INTERFACE "interface" (-1)
          (Some (BaseInfo.mk (Some "") "Gtk")))
     = Ok hint
     ∧ (TypeTag.INTERFACE ≠ TypeTag.INTERFACE → hint = "interface")
     ∧ (∀ iface, Some (BaseInfo.mk (Some "") "Gtk") = Some iface →
          BaseInfo.get_name iface = None ∨ BaseInfo.get_name iface = Some "" →
          hint = "interface")).
Proof.
  split.
  - apply (get_pytype_hint_unmapped
             (TypeInfo.mk (TypeTag.unrecognized 99) "unknown" (-1) None)).
    + reflexivity.
    + discriminate.
  - apply (get_pytype_hint_unmapped
             (TypeInfo.mk TypeTag.INTERFACE "interface" (-1)
                (Some (BaseInfo.mk (Some "") "Gtk")))).
    + reflexivity.
    + intros _. eexists. reflexivity.
Defined.

(** C7, as it is worded, fails: the tag is the interface tag, which the
    table maps to no class, every accessor of the descriptor answers
    ([get_interface] answers [None]), and the resolver raises
    [AttributeError] and returns no string. *)
Lemma get_pytype_hint_unmapped_counterexample :
  dict_get _type_tag_to_py_type
    (TypeInfo.get_tag (TypeInfo.mk TypeTag.INTERFACE "interface" (-1) None))
    None
  = None
  ∧ _get_pytype_hint (TypeInfo.mk TypeTag.INTERFACE "interface" (-1) None)
    = Raise AttributeError
  ∧ ¬ ∃ hint,
        _get_pytype_hint (TypeInfo.mk TypeTag.INTERFACE "interface" (-1) None)
        = Ok hint.
Proof.
  split_and!.
  - reflexivity.
  - reflexivity.
  - intros (hint & Hhint).
    change (@Raise string AttributeError = Ok hint) in Hhint.
    discriminate Hhint.
Qed.

(** ** The generator registry *)

(** C8: after [set_doc_string_generator(fn)], whatever the slot held,
    [get_doc_string_generator()] answers [fn] and [generate_doc_string(d)]
    is [fn(d)], its result or its exception; the slot takes any value,
    [None] too; when the module is loaded the slot holds the default
    formatter. *)
Theorem registry_set_get_generate :
  (∀ (fn : generator) (st : module_state) (d : CallableInfo.t),
     get_doc_string_generator (set_doc_string_generator (Some fn) st) = Some fn
     ∧ generate_doc_string (set_doc_string_generator (Some fn) st) d = fn d)
  ∧ (∀ (func : option generator) (st : module_state),
       get_doc_string_generator (set_doc_string_generator func st) = func)
  ∧ get_doc_string_generator module_loaded
    = Some _generate_callable_info_function_signature
  ∧ (∀ d : CallableInfo.t,
       generate_doc_string module_loaded d
       = _generate_callable_info_function_signature d).
Proof.
  split_and!.
  - intros fn st d. split.
    + unfold get_doc_string_generator, set_doc_string_generator. reflexivity.
    + unfold generate_doc_string, set_doc_string_generator. reflexivity.
  - intros func st.
    unfold get_doc_string_generator, set_doc_string_generator. reflexivity.
  - unfold module_loaded, get_doc_string_generator, set_doc_string_generator.
    reflexivity.
  - intros d. unfold module_loaded, generate_doc_string, set_doc_string_generator.
    reflexivity.
Qed.

(** ** Strings and sequences of fallible steps *)

Lemma append_assoc (s1 s2 s3 : string) :
  (s1 +:+ s2) +:+ s3 = s1 +:+ (s2 +:+ s3).
Proof.
  induction s1 as [|c s1 IH]; [done|].
  change (String c ((s1 +:+ s2) +:+ s3) = String c (s1 +:+ (s2 +:+ s3))).
  by rewrite IH.
Qed.

Lemma append_empty_r (s : string) : s +:+ "" = s.
Proof.
  induction s as [|c s IH]; [done|].
  change (String c (s +:+ "") = String c s).
  by rewrite IH.
Qed.

(** A generator expression yields a list exactly when each of its elements
    is evaluated without an exception. *)
Lemma map_result_Ok {A B : Type} (f : A → result B) (l : list A) (ys : list B) :
  map_result f l = Ok ys ↔ Forall2 (λ x y, f x = Ok y) l ys.
Proof.
  revert ys. induction l as [|x l IH]; intros ys; cbn.
  - split.
    + intros [= <-]. constructor.
    + intros Hnil. by inversion Hnil.
  - destruct (f x) as [y|e] eqn:Hfx; cbn.
    + destruct (map_result f l) as [ys'|e] eqn:Hl; cbn.
      * split.
        -- intros [= <-]. constructor; [done|]. by apply IH.
        -- intros Hcons. inversion Hcons as [|? y' ? ys'' Hy Hys]; subst.
           apply IH in Hys. congruence.
      * split; [done|].
        intros Hcons. inversion Hcons as [|? y' ? ys'' Hy Hys]; subst.
        apply IH in Hys. discriminate.
    + split; [done|].
      intros Hcons. inversion Hcons; congruence.
Qed.

(** ** The implicit parameter and the index sets *)

Lemma implicit_args_cases info :
  implicit_args info
  = match CallableInfo.class info with
    | VFuncInfo => ["self"]
    | FunctionInfo =>
        if CallableInfo.is_method info then ["self"]
        else if CallableInfo.is_constructor info then ["cls"]
        else []
    | OtherInfo => []
    end.
Proof.
  unfold implicit_args, isinstance.
  by destruct (CallableInfo.class info).
Qed.

(** The loop of lines 138-141, started on any two sets. *)
Lemma companion_loop in_args ignore_indices user_data_indices z :
  (z ∈ (fold_left companion_body in_args
          (ignore_indices, user_data_indices)).1
   ↔ z ∈ ignore_indices
     ∨ ∃ arg, arg ∈ in_args
         ∧ (z = ArgInfo.get_destroy arg
            ∨ z = TypeInfo.get_array_length (ArgInfo.get_type arg)))
  ∧ (z ∈ (fold_left companion_body in_args
            (ignore_indices, user_data_indices)).2
     ↔ z ∈ user_data_indices
       ∨ ∃ arg, arg ∈ in_args ∧ z = ArgInfo.get_closure arg).
Proof.
  revert ignore_indices user_data_indices.
  induction in_args as [|arg in_args IH];
    intros ignore_indices user_data_indices; cbn [fold_left].
  - cbn. split; (split; [tauto|]).
    + intros [?|(arg & Harg & _)]; [done|]. by apply elem_of_nil in Harg.
    + intros [?|(arg & Harg & _)]; [done|]. by apply elem_of_nil in Harg.
  - unfold companion_body at 2 4.
    destruct (IH (ignore_indices ∪ {[ArgInfo.get_destroy arg]}
                  ∪ {[TypeInfo.get_array_length (ArgInfo.get_type arg)]})
                 (user_data_indices ∪ {[ArgInfo.get_closure arg]}))
      as [IHi IHu].
    split.
    + rewrite IHi. rewrite !elem_of_union, !elem_of_singleton.
      split.
      * intros [[[?| ->]| ->]|(arg' & Harg' & Hz)].
        -- by left.
        -- right. exists arg. split; [left|]; tauto.
        -- right. exists arg. split; [left|]; tauto.
        -- right. exists arg'. split; [by right|]. done.
      * intros [?|(arg' & Harg' & Hz)]; [tauto|].
        apply elem_of_cons in Harg' as [->|Harg']; [tauto|].
        right. by exists arg'.
    + rewrite IHu. rewrite !elem_of_union, !elem_of_singleton.
      split.
      * intros [[?| ->]|(arg' & Harg' & Hz)].
        -- by left.
        -- right. exists arg. split; [left|]; done.
        -- right. exists arg'. split; [by right|]. done.
      * intros [?|(arg' & Harg' & Hz)]; [tauto|].
        apply elem_of_cons in Harg' as [->|Harg']; [tauto|].
        right. by exists arg'.
Qed.

Lemma elem_of_ignore_indices in_args z :
  z ∈ (companion_indices in_args).1
  ↔ ∃ arg, arg ∈ in_args
      ∧ (z = ArgInfo.get_destroy arg
         ∨ z = TypeInfo.get_array_length (ArgInfo.get_type arg)).
Proof.
  unfold companion_indices.
  rewrite (proj1 (companion_loop in_args ∅ ∅ z)).
  rewrite elem_of_empty. tauto.
Qed.

Lemma elem_of_user_data_indices in_args z :
  z ∈ (companion_indices in_args).2
  ↔ ∃ arg, arg ∈ in_args ∧ z = ArgInfo.get_closure arg.
Proof.
  unfold companion_indices.
  rewrite (proj2 (companion_loop in_args ∅ ∅ z)).
  rewrite elem_of_empty. tauto.
Qed.

(** ** The loop over the in-arguments *)

(** The string one turn of the loop builds by its two updates of [argstr]
    is the rendering the specification words. *)
Lemma argstr_rendered user_data_indices i arg hint :
  (let argstr := ArgInfo.get_name arg in
   let argstr :=
     if bool_decide (hint ∈ ["void"]) then argstr
     else argstr +:+ (":" +:+ hint) in
   if ArgInfo.may_be_null arg
      || bool_decide (Z.of_nat i ∈ user_data_indices)
   then argstr +:+ "=None"
   else if ArgInfo.is_optional arg then argstr +:+ "=<optional>"
   else argstr)
  = rendered_in_arg user_data_indices i arg hint.
Proof.
  unfold rendered_in_arg. cbv zeta.
  assert (bool_decide (hint ∈ ["void"]) = bool_decide (hint = "void")) as ->.
  { apply bool_decide_ext. rewrite elem_of_cons, elem_of_nil. tauto. }
  destruct (decide (hint = "void")) as [Hvoid|Hvoid].
  - rewrite (bool_decide_eq_true_2 _ Hvoid).
    destruct (ArgInfo.may_be_null arg); cbn [orb]; [done|].
    destruct (decide (Z.of_nat i ∈ user_data_indices)) as [Hud|Hud].
    + by rewrite (bool_decide_eq_true_2 _ Hud).
    + rewrite (bool_decide_eq_false_2 _ Hud).
      destruct (ArgInfo.is_optional arg); [done|].
      by rewrite !append_empty_r.
  - rewrite (bool_decide_eq_false_2 _ Hvoid).
    destruct (ArgInfo.may_be_null arg); cbn [orb].
    { by rewrite append_assoc. }
    destruct (decide (Z.of_nat i ∈ user_data_indices)) as [Hud|Hud].
    + rewrite (bool_decide_eq_true_2 _ Hud). by rewrite append_assoc.
    + rewrite (bool_decide_eq_false_2 _ Hud).
      destruct (ArgInfo.is_optional arg).
      * by rewrite append_assoc.
      * by rewrite !append_empty_r.
Qed.

Lemma kept_from_cons_ignored ignore_indices i arg in_args :
  Z.of_nat i ∈ ignore_indices →
  kept_from ignore_indices i (arg :: in_args)
  = kept_from ignore_indices (S i) in_args.
Proof.
  intros Hin. unfold kept_from. cbn [enumerate_from].
  rewrite filter_cons_False; [done|]. cbn. tauto.
Qed.

Lemma kept_from_cons_kept ignore_indices i arg in_args :
  Z.of_nat i ∉ ignore_indices →
  kept_from ignore_indices i (arg :: in_args)
  = (i, arg) :: kept_from ignore_indices (S i) in_args.
Proof.
  intros Hin. unfold kept_from. cbn [enumerate_from].
  by rewrite filter_cons_True.
Qed.

(** The loop ends without an exception exactly when the hint of every kept
    argument resolves; it has then appended the renderings of the kept
    arguments, in order, and nothing for the others. *)
Lemma in_args_loop_Ok ignore_indices user_data_indices in_args :
  ∀ (i : nat) (in_args_strs strs : list string),
    in_args_loop ignore_indices user_data_indices i in_args in_args_strs
    = Ok strs
    ↔ ∃ hints,
        Forall2 (λ p hint, hint_of p.2 hint)
          (kept_from ignore_indices i in_args) hints
        ∧ strs = in_args_strs
                 ++ zip_with (λ p hint, rendered_in_arg user_data_indices p.1 p.2 hint)
                      (kept_from ignore_indices i in_args) hints.
Proof.
  induction in_args as [|arg in_args IH]; intros i in_args_strs strs.
  - cbn. split.
    + intros [= <-]. exists []. split; [constructor|]. by rewrite app_nil_r.
    + intros (hints & Hhints & ->). inversion Hhints; subst.
      by rewrite app_nil_r.
  - cbn [in_args_loop].
    destruct (decide (Z.of_nat i ∈ ignore_indices)) as [Hin|Hin].
    + rewrite (bool_decide_eq_true_2 _ Hin).
      rewrite kept_from_cons_ignored by done. apply IH.
    + rewrite (bool_decide_eq_false_2 _ Hin).
      rewrite kept_from_cons_kept by done.
      destruct (_get_pytype_hint (ArgInfo.get_type arg)) as [hint|e] eqn:Hhint;
        cbn [mbind result_bind].
      * rewrite argstr_rendered. rewrite IH. split.
        -- intros (hints & Hhints & ->). exists (hint :: hints). split.
           ++ by constructor.
           ++ cbn [zip_with fst snd]. by rewrite <- app_assoc.
        -- intros (hints & Hhints & ->).
           inversion Hhints as [|? hint' ? hints' Hh Hrest]; subst.
           unfold hint_of in Hh. cbn [snd] in Hh.
           assert (hint' = hint) as -> by congruence.
           exists hints'. split; [done|].
           cbn [zip_with fst snd]. by rewrite <- app_assoc.
      * split; [done|].
        intros (hints & Hhints & _).
        inversion Hhints as [|? hint' ? hints' Hh Hrest]; subst.
        unfold hint_of in Hh. cbn [snd] in Hh. congruence.
Qed.

(** The list of positional arguments, from the implicit parameter on. *)
Lemma positional_args_Ok info in_args strs :
  positional_args info in_args = Ok strs
  ↔ ∃ hints,
      Forall2 (λ p hint, hint_of p.2 hint)
        (kept_from (companion_indices in_args).1 0 in_args) hints
      ∧ strs = implicit_args info
               ++ zip_with
                    (λ p hint,
                       rendered_in_arg (companion_indices in_args).2 p.1 p.2 hint)
                    (kept_from (companion_indices in_args).1 0 in_args) hints.
Proof.
  unfold positional_args.
  destruct (companion_indices in_args) as [ignore_indices user_data_indices].
  apply in_args_loop_Ok.
Qed.

(** The place of a kept position among the kept positions. *)
Lemma kept_from_lookup ignore_indices in_args :
  ∀ (i n : nat) (arg : ArgInfo.t),
    in_args !! n = Some arg →
    Z.of_nat (i + n) ∉ ignore_indices →
    kept_from ignore_indices i in_args
      !! length (filter (λ j, Z.of_nat j ∉ ignore_indices) (seq i n))
    = Some ((i + n)%nat, arg).
Proof.
  induction in_args as [|arg' in_args IH]; intros i n arg Hn Hkept.
  - by rewrite lookup_nil in Hn.
  - destruct n as [|n].
    + cbn in Hn. injection Hn as ->.
      rewrite Nat.add_0_r in *. rewrite kept_from_cons_kept by done.
      reflexivity.
    + cbn [lookup list_lookup] in Hn. cbn [seq].
      replace (i + S n)%nat with (S i + n)%nat in * by lia.
      destruct (decide (Z.of_nat i ∈ ignore_indices)) as [Hin|Hin].
      * rewrite kept_from_cons_ignored by done.
        rewrite filter_cons_False by tauto.
        by apply IH.
      * rewrite kept_from_cons_kept by done.
        rewrite filter_cons_True by done.
        cbn [length lookup list_lookup].
        by apply IH.
Qed.

Lemma elem_of_enumerate_from {A : Type} (l : list A) :
  ∀ (s i : nat) (x : A),
    (i, x) ∈ enumerate_from s l ↔ ∃ n, i = (s + n)%nat ∧ l !! n = Some x.
Proof.
  induction l as [|y l IH]; intros s i x; cbn [enumerate_from].
  - rewrite elem_of_nil. split; [done|]. intros (n & _ & Hn).
    by rewrite lookup_nil in Hn.
  - rewrite elem_of_cons, IH. split.
    + intros [[= -> ->]|(n & -> & Hn)].
      * exists 0%nat. split; [lia|done].
      * exists (S n). split; [lia|done].
    + intros ([|n] & -> & Hn).
      * left. cbn in Hn. injection Hn as ->. f_equal. lia.
      * right. exists n. split; [lia|done].
Qed.

(** The kept positions are the positions that are not in
    [ignore_indices]. *)
Lemma elem_of_kept_from ignore_indices in_args i arg :
  (i, arg) ∈ kept_from ignore_indices 0 in_args
  ↔ in_args !! i = Some arg ∧ Z.of_nat i ∉ ignore_indices.
Proof.
  unfold kept_from. rewrite list_elem_of_filter, elem_of_enumerate_from.
  cbn [fst]. split.
  - intros (Hkept & n & -> & Hn). done.
  - intros (Hn & Hkept). split; [done|]. by exists i.
Qed.

(** ** [_generate_callable_info_function_signature] *)

(** C6: the list of positional arguments starts with the implicit
    parameter: self for a virtual function and for a function that is a
    method, cls for a function that is a constructor and no method, and no
    parameter otherwise; it is one parameter at most, and every other
    element of the list comes from an in-argument that is kept. *)
Theorem implicit_parameter (info : CallableInfo.t) :
  (CallableInfo.class info = VFuncInfo → implicit_args info = ["self"])
  ∧ (CallableInfo.class info = FunctionInfo →
     CallableInfo.is_method info = true → implicit_args info = ["self"])
  ∧ (CallableInfo.class info = FunctionInfo →
     CallableInfo.is_method info = false →
     CallableInfo.is_constructor info = true → implicit_args info = ["cls"])
  ∧ (CallableInfo.class info = FunctionInfo →
     CallableInfo.is_method info = false →
     CallableInfo.is_constructor info = false → implicit_args info = [])
  ∧ (CallableInfo.class info ≠ VFuncInfo →
     CallableInfo.class info ≠ FunctionInfo → implicit_args info = [])
  ∧ (length (implicit_args info) ≤ 1)%nat
  ∧ (∀ strs,
       positional_args info (split_function_info_args info).1 = Ok strs →
       ∃ rest,
         strs = implicit_args info ++ rest
         ∧ length rest
           = length (kept_from
                       (companion_indices (split_function_info_args info).1).1
                       0 (split_function_info_args info).1)).
Proof.
  rewrite implicit_args_cases.
  split_and!.
  - by intros ->.
  - by intros -> ->.
  - by intros -> -> ->.
  - by intros -> -> ->.
  - intros Hv Hf. by destruct (CallableInfo.class info).
  - destruct (CallableInfo.class info); cbn; [lia| |lia].
    destruct (CallableInfo.is_method info); cbn; [lia|].
    destruct (CallableInfo.is_constructor info); cbn; lia.
  - intros strs Hstrs.
    apply positional_args_Ok in Hstrs as (hints & Hhints & ->).
    rewrite implicit_args_cases.
    eexists. split; [reflexivity|].
    rewrite length_zip_with_l_eq; [done|].
    by eapply Forall2_length.
Qed.

(** C2: [ignore_indices], computed from the whole in-list before the loop,
    is the set of the destroy-notify and array-length indices of the
    in-arguments, wherever in the list the argument that names an index
    stands; the positional list is the implicit parameter followed by one
    string for each position that is not in the set, in order, so a position
    in the set has no string in it. *)
Theorem ignored_in_args_absent (info : CallableInfo.t) :
  let in_args := (split_function_info_args info).1 in
  let ignore_indices := (companion_indices in_args).1 in
  let user_data_indices := (companion_indices in_args).2 in
  let kept := kept_from ignore_indices 0 in_args in
  (∀ z, z ∈ ignore_indices
        ↔ ∃ arg, arg ∈ in_args
            ∧ (z = ArgInfo.get_destroy arg
               ∨ z = TypeInfo.get_array_length (ArgInfo.get_type arg)))
  ∧ (∀ i arg, (i, arg) ∈ kept
              ↔ in_args !! i = Some arg ∧ Z.of_nat i ∉ ignore_indices)
  ∧ (∀ strs,
       positional_args info in_args = Ok strs
       ↔ ∃ hints,
           Forall2 (λ p hint, hint_of p.2 hint) kept hints
           ∧ strs = implicit_args info
                    ++ zip_with
                         (λ p hint, rendered_in_arg user_data_indices p.1 p.2 hint)
                         kept hints)
  ∧ (∀ strs,
       positional_args info in_args = Ok strs →
       length strs = (length (implicit_args info) + length kept)%nat).
Proof.
  intros in_args ignore_indices user_data_indices kept.
  split_and!.
  - intros z. apply elem_of_ignore_indices.
  - intros i arg. apply elem_of_kept_from.
  - intros strs. apply positional_args_Ok.
  - intros strs Hstrs.
    apply positional_args_Ok in Hstrs as (hints & Hhints & ->).
    rewrite length_app. f_equal.
    rewrite length_zip_with_l_eq; [done|].
    by eapply Forall2_length.
Qed.

(** The default marker, with its two reasons for [=None] as one test. *)
Lemma rendered_in_arg_marker user_data_indices i arg hint :
  rendered_in_arg user_data_indices i arg hint
  = ArgInfo.get_name arg
    +:+ (if decide (hint = "void") then "" else ":" +:+ hint)
    +:+ (if decide (ArgInfo.may_be_null arg = true
                    ∨ Z.of_nat i ∈ user_data_indices)
         then "=None"
         else if ArgInfo.is_optional arg then "=<optional>"
         else "").
Proof.
  unfold rendered_in_arg. do 2 f_equal.
  destruct (ArgInfo.may_be_null arg).
  - rewrite decide_True; [done|]. by left.
  - destruct (decide (Z.of_nat i ∈ user_data_indices)) as [Hud|Hud].
    + rewrite decide_True; [done|]. by right.
    + rewrite decide_False; [done|]. intros [?|?]; done.
Qed.

(** C3: when the positional list is built, the in-argument at a position
    [i] that is not suppressed stands in it after the implicit parameter
    and the kept arguments before it, as its name, then a colon and the type
    hint unless the hint is void, then =None if the argument may be null or
    [i] is in [user_data_indices] (the closure indices of the
    in-arguments), else =<optional> if the argument is optional, else
    nothing. *)
Theorem in_arg_rendering (info : CallableInfo.t) (strs : list string)
    (i : nat) (arg : ArgInfo.t) :
  let in_args := (split_function_info_args info).1 in
  let ignore_indices := (companion_indices in_args).1 in
  let user_data_indices := (companion_indices in_args).2 in
  positional_args info in_args = Ok strs →
  in_args !! i = Some arg →
  Z.of_nat i ∉ ignore_indices →
  (∀ z, z ∈ user_data_indices
        ↔ ∃ arg', arg' ∈ in_args ∧ z = ArgInfo.get_closure arg')
  ∧ ∃ hint,
      _get_pytype_hint (ArgInfo.get_type arg) = Ok hint
      ∧ strs !! (length (implicit_args info) + rank ignore_indices i)%nat
        = Some (ArgInfo.get_name arg
                +:+ (if decide (hint = "void") then "" else ":" +:+ hint)
                +:+ (if decide (ArgInfo.may_be_null arg = true
                                ∨ Z.of_nat i ∈ user_data_indices)
                     then "=None"
                     else if ArgInfo.is_optional arg then "=<optional>"
                     else "")).
Proof.
  intros in_args ignore_indices user_data_indices Hstrs Harg Hkept.
  split; [intros z; apply elem_of_user_data_indices|].
  apply positional_args_Ok in Hstrs as (hints & Hhints & ->).
  pose proof (kept_from_lookup ignore_indices in_args 0 i arg Harg Hkept)
    as Hlookup.
  fold (rank ignore_indices i) in Hlookup. cbn [Nat.add] in Hlookup.
  destruct (Forall2_lookup_l _ _ _ _ _ Hhints Hlookup) as (hint & Hhint & Hof).
  exists hint. split; [exact Hof|].
  rewrite lookup_app_r by lia.
  replace (length (implicit_args info) + rank ignore_indices i
           - length (implicit_args info))%nat
    with (rank ignore_indices i) by lia.
  rewrite lookup_zip_with.
  fold in_args ignore_indices user_data_indices.
  rewrite Hlookup, Hhint. cbn [mbind option_bind fst snd].
  by rewrite rendered_in_arg_marker.
Qed.

(** ** The out-arguments and the signature *)

Lemma out_arg_str_rendered arg hint :
  hint_of arg hint → out_arg_str arg = Ok (rendered_out_arg arg hint).
Proof.
  unfold hint_of, out_arg_str, rendered_out_arg. intros ->.
  cbn [mbind result_bind]. by rewrite append_assoc.
Qed.

Lemma out_arg_str_Ok arg str :
  out_arg_str arg = Ok str
  ↔ ∃ hint, hint_of arg hint ∧ str = rendered_out_arg arg hint.
Proof.
  split.
  - unfold out_arg_str, hint_of.
    destruct (_get_pytype_hint (ArgInfo.get_type arg)) as [hint|e];
      cbn [mbind result_bind]; [|done].
    intros [= <-]. exists hint. split; [done|].
    unfold rendered_out_arg. by rewrite append_assoc.
  - intros (hint & Hhint & ->). by apply out_arg_str_rendered.
Qed.

(** The generator expression renders every out-argument, in order. *)
Lemma out_args_Ok out_args out_strs :
  map_result out_arg_str out_args = Ok out_strs
  ↔ ∃ hints,
      Forall2 hint_of out_args hints
      ∧ out_strs = zip_with rendered_out_arg out_args hints.
Proof.
  rewrite map_result_Ok. split.
  - induction 1 as [|arg str out_args out_strs Hstr _ IH].
    + exists []. split; [constructor|done].
    + apply out_arg_str_Ok in Hstr as (hint & Hhint & ->).
      destruct IH as (hints & Hhints & ->).
      exists (hint :: hints). split; [by constructor|done].
  - intros (hints & Hhints & ->).
    induction Hhints as [|arg hint out_args hints Hhint _ IH]; cbn [zip_with].
    + constructor.
    + constructor; [by apply out_arg_str_rendered|done].
Qed.

(** The signature the formatter returns, from the two lists of strings. *)
Lemma signature_Ok info s :
  _generate_callable_info_function_signature info = Ok s
  ↔ ∃ in_strs out_strs,
      positional_args info (split_function_info_args info).1 = Ok in_strs
      ∧ map_result out_arg_str (split_function_info_args info).2 = Ok out_strs
      ∧ s = match (split_function_info_args info).2 with
            | [] =>
                CallableInfo.get_name info +:+ "("
                +:+ String.concat ", " in_strs +:+ ")"
            | _ :: _ =>
                CallableInfo.get_name info +:+ "("
                +:+ String.concat ", " in_strs +:+ ") -> "
                +:+ String.concat ", " out_strs
            end.
Proof.
  unfold _generate_callable_info_function_signature.
  destruct (split_function_info_args info) as [in_args out_args].
  cbn [fst snd].
  destruct (positional_args info in_args) as [in_strs|e];
    cbn [mbind result_bind].
  - destruct out_args as [|arg out_args].
    + split.
      * intros [= <-]. by exists in_strs, [].
      * intros (in_strs' & out_strs & [= <-] & _ & ->). done.
    + destruct (map_result out_arg_str (arg :: out_args)) as [out_strs|e];
        cbn [mbind result_bind].
      * split.
        -- intros [= <-]. by exists in_strs, out_strs.
        -- intros (in_strs' & out_strs' & [= <-] & [= <-] & ->). done.
      * split; [done|].
        intros (in_strs' & out_strs' & _ & Hout & _). done.
  - split; [done|].
    intros (in_strs' & out_strs' & Hin & _). done.
Qed.

(** C1: the formatter returns a string exactly when the type hints of the
    kept in-arguments and of the out-arguments resolve, and the string is
    then name(in_args) -> out_args when there are out-arguments and
    name(in_args) when there are none: in_args is the implicit parameter
    and the renderings of the kept in-arguments joined with a comma and a
    space, out_args is name:TypeHint for each out-argument in order, void or
    not, joined the same way. *)
Theorem signature_format (info : CallableInfo.t) (s : string) :
  let in_args := (split_function_info_args info).1 in
  let out_args := (split_function_info_args info).2 in
  let ignore_indices := (companion_indices in_args).1 in
  let user_data_indices := (companion_indices in_args).2 in
  let kept := kept_from ignore_indices 0 in_args in
  _generate_callable_info_function_signature info = Ok s
  ↔ ∃ in_hints out_hints,
      Forall2 (λ p hint, hint_of p.2 hint) kept in_hints
      ∧ Forall2 hint_of out_args out_hints
      ∧ let in_strs :=
          implicit_args info
          ++ zip_with (λ p hint, rendered_in_arg user_data_indices p.1 p.2 hint)
               kept in_hints in
        let out_strs :=
          zip_with (λ arg hint, ArgInfo.get_name arg +:+ ":" +:+ hint)
            out_args out_hints in
        s = match out_args with
            | [] =>
                CallableInfo.get_name info +:+ "("
                +:+ String.concat ", " in_strs +:+ ")"
            | _ :: _ =>
                CallableInfo.get_name info +:+ "("
                +:+ String.concat ", " in_strs +:+ ")"
                +:+ " -> " +:+ String.concat ", " out_strs
            end.
Proof.
  intros in_args out_args ignore_indices user_data_indices kept.
  rewrite signature_Ok. fold in_args out_args. split.
  - intros (in_strs & out_strs & Hin & Hout & ->).
    apply positional_args_Ok in Hin as (in_hints & Hin & ->).
    apply out_args_Ok in Hout as (out_hints & Hout & ->).
    exists in_hints, out_hints. split_and!; [done..|].
    cbv zeta. fold ignore_indices user_data_indices kept.
    destruct out_args; reflexivity.
  - intros (in_hints & out_hints & Hin & Hout & ->).
    eexists _, _. split_and!.
    + apply positional_args_Ok. exists in_hints. split; [exact Hin|reflexivity].
    + apply out_args_Ok. exists out_hints. split; [exact Hout|reflexivity].
    + cbv zeta. fold ignore_indices user_data_indices kept.
      destruct out_args; reflexivity.
Qed.

(** ** The companion indices of the out-arguments *)

(** The resolver reads the tag, the tag's string and the interface, and
    never the array-length index. *)
Lemma hint_same_type t1 t2 :
  same_type_but_length t1 t2 → _get_pytype_hint t1 = _get_pytype_hint t2.
Proof.
  intros (Htag & Hstring & Hiface).
  unfold _get_pytype_hint. by rewrite Htag, Hstring, Hiface.
Qed.

Lemma same_but_out_companions_is_in a1 a2 :
  same_but_out_companions a1 a2 → is_in a1 ↔ is_in a2.
Proof.
  intros [->|(Hd1 & Hd2 & _)]; [done|].
  unfold is_in. rewrite Hd1, Hd2. done.
Qed.

Lemma same_but_out_companions_is_out a1 a2 :
  same_but_out_companions a1 a2 → is_out a1 ↔ is_out a2.
Proof.
  intros [->|(Hd1 & Hd2 & _)]; [done|].
  unfold is_out. rewrite Hd1, Hd2. done.
Qed.

Lemma same_but_out_companions_out_arg_str a1 a2 :
  same_but_out_companions a1 a2 → out_arg_str a1 = out_arg_str a2.
Proof.
  intros [->|(_ & _ & Hname & _ & _ & Htype)]; [done|].
  unfold out_arg_str. by rewrite (hint_same_type _ _ Htype), Hname.
Qed.

(** The in-lists of two such argument sequences are the same list. *)
Lemma filter_is_in_same args1 args2 :
  Forall2 same_but_out_companions args1 args2 →
  filter is_in args1 = filter is_in args2.
Proof.
  induction 1 as [|a1 a2 args1 args2 Hsame _ IH]; [done|].
  rewrite !filter_cons.
  destruct Hsame as [->|(Hd1 & Hd2 & _)].
  - by rewrite IH.
  - rewrite !decide_False; [done| |].
    + unfold is_in. rewrite Hd2. intros [?|?]; discriminate.
    + unfold is_in. rewrite Hd1. intros [?|?]; discriminate.
Qed.

(** Their out-lists are rendered alike. *)
Lemma map_result_out_same outs1 outs2 :
  Forall2 same_but_out_companions outs1 outs2 →
  map_result out_arg_str outs1 = map_result out_arg_str outs2.
Proof.
  induction 1 as [|a1 a2 outs1 outs2 Hsame _ IH]; [done|].
  cbn [map_result].
  by rewrite (same_but_out_companions_out_arg_str _ _ Hsame), IH.
Qed.

Lemma implicit_args_same info1 info2 :
  CallableInfo.class info1 = CallableInfo.class info2 →
  CallableInfo.is_method info1 = CallableInfo.is_method info2 →
  CallableInfo.is_constructor info1 = CallableInfo.is_constructor info2 →
  implicit_args info1 = implicit_args info2.
Proof. intros Hc Hm Hk. rewrite !implicit_args_cases. by rewrite Hc, Hm, Hk. Qed.

(** C9: two descriptors that differ solely in the destroy-notify, closure
    and array-length indices of arguments of direction OUT have the same
    signature (or raise the same exception); and whenever a signature is
    returned, its out part renders every argument of the out-list, one
    string each, whatever the index sets hold. *)
Theorem out_companions_irrelevant :
  (∀ info1 info2 : CallableInfo.t,
     differ_in_out_companions info1 info2 →
     _generate_callable_info_function_signature info1
     = _generate_callable_info_function_signature info2)
  ∧ (∀ (info : CallableInfo.t) (s : string),
       _generate_callable_info_function_signature info = Ok s →
       (split_function_info_args info).2 ≠ [] →
       ∃ in_strs out_hints,
         Forall2 hint_of (split_function_info_args info).2 out_hints
         ∧ length (zip_with rendered_out_arg
                     (split_function_info_args info).2 out_hints)
           = length (split_function_info_args info).2
         ∧ s = CallableInfo.get_name info +:+ "("
               +:+ String.concat ", " in_strs +:+ ") -> "
               +:+ String.concat ", "
                     (zip_with rendered_out_arg
                        (split_function_info_args info).2 out_hints)).
Proof.
  split.
  - intros info1 info2 (Hclass & Hname & Hmethod & Hctor & Hargs).
    unfold _generate_callable_info_function_signature.
    rewrite !split_filter.
    rewrite (filter_is_in_same _ _ Hargs).
    unfold positional_args.
    rewrite (implicit_args_same info1 info2) by done.
    destruct (companion_indices _) as [ignore_indices user_data_indices].
    destruct (in_args_loop _ _ _ _ _) as [in_strs|e];
      cbn [mbind result_bind]; [|done].
    assert (Forall2 same_but_out_companions
              (filter is_out (CallableInfo.get_arguments info1))
              (filter is_out (CallableInfo.get_arguments info2))) as Houts.
    { apply Forall2_filter; [|done].
      intros a1 a2. apply same_but_out_companions_is_out. }
    pose proof (map_result_out_same _ _ Houts) as Hmap.
    destruct Houts as [|a1 a2 outs1 outs2 Hsame Houts].
    + by rewrite Hname.
    + by rewrite Hmap, Hname.
  - intros info s Hs Hne.
    apply signature_Ok in Hs as (in_strs & out_strs & _ & Hout & ->).
    apply out_args_Ok in Hout as (out_hints & Hhints & ->).
    exists in_strs, out_hints. split_and!.
    + done.
    + rewrite length_zip_with_l_eq; [done|]. by eapply Forall2_length.
    + by destruct (split_function_info_args info).2.
Qed.

(** ** The properties at the test descriptors *)

(** The user data of [closure_info], at position 1, is rendered with
    [=None] and without a hint. *)
Lemma in_arg_rendering_witness :
  positional_args closure_info (split_function_info_args closure_info).1
  = Ok ["data:Gtk.Widget"; "user_data=None"]
  ∧ (split_function_info_args closure_info).1 !! 1%nat = Some user_data_arg
  ∧ (Z.of_nat 1
     ∉ (companion_indices (split_function_info_args closure_info).1).1)
  ∧ ∃ hint,
      _get_pytype_hint (ArgInfo.get_type user_data_arg) = Ok hint
      ∧ ["data:Gtk.Widget"; "user_data=None"]
          !! (length (implicit_args closure_info)
              + rank (companion_indices
                        (split_function_info_args closure_info).1).1 1)%nat
        = Some (ArgInfo.get_name user_data_arg
                +:+ (if decide (hint = "void") then "" else ":" +:+ hint)
                +:+ (if decide
                          (ArgInfo.may_be_null user_data_arg = true
                           ∨ Z.of_nat 1
                             ∈ (companion_indices
                                  (split_function_info_args closure_info).1).2)
                     then "=None"
                     else if ArgInfo.is_optional user_data_arg
                          then "=<optional>"
                          else "")).
Proof.
  assert (positional_args closure_info
            (split_function_info_args closure_info).1
          = Ok ["data:Gtk.Widget"; "user_data=None"]) as Hstrs
    by (vm_compute; reflexivity).
  assert ((split_function_info_args closure_info).1 !! 1%nat
          = Some user_data_arg) as Harg by reflexivity.
  assert (Z.of_nat 1
          ∉ (companion_indices (split_function_info_args closure_info).1).1)
    as Hkept by (refine (bool_decide_unpack _ _); vm_compute; exact I).
  split_and!; [exact Hstrs|exact Harg|exact Hkept|].
  exact (proj2 (in_arg_rendering closure_info _ 1 user_data_arg
                  Hstrs Harg Hkept)).
Defined.

(** The signature of [method_info]: the length [n] of [items] is left out,
    [items] is in both parts, and the void hint is kept in the out part. *)
Lemma signature_format_witness :
  _generate_callable_info_function_signature method_info
  = Ok "read(self, path:str=None, items:list) -> items:list, ok:void".
Proof.
  apply (proj2 (signature_format method_info
                  "read(self, path:str=None, items:list) -> items:list, ok:void")).
  exists ["str"; "list"], ["list"; "void"].
  split_and!.
  - vm_compute. repeat constructor.
  - vm_compute. repeat constructor.
  - vm_compute. reflexivity.
Defined.

(** Whatever the companion indices of the out-argument [buffer] are, the
    signature is the same. *)
Lemma out_companions_irrelevant_witness :
  _generate_callable_info_function_signature (out_info 0 0 0)
  = _generate_callable_info_function_signature (out_info (-1) (-1) (-1))
  ∧ _generate_callable_info_function_signature (out_info 0 0 0)
    = Ok "fill(x:int) -> buffer:list".
Proof.
  split; [|vm_compute; reflexivity].
  apply (proj1 out_companions_irrelevant).
  unfold differ_in_out_companions. split_and!; try reflexivity.
  constructor; [by left|].
  constructor; [|constructor].
  right. unfold same_type_but_length. by split_and!.
Defined.

(** ** Exceptions of the formatter *)

(** The resolver raises on an interface tag without an interface object,
    then [AttributeError], and on nothing else. *)
Lemma hint_Raise gi_type e :
  _get_pytype_hint gi_type = Raise e
  ↔ e = AttributeError ∧ no_interface gi_type.
Proof.
  unfold _get_pytype_hint, no_interface.
  destruct (dict_get _ _ _) as [ty|] eqn:Hget.
  - split; [done|]. intros (_ & Htag & _).
    assert (dict_get _type_tag_to_py_type (TypeInfo.get_tag gi_type) None = None)
      as Hnone by (apply table_unmapped; tauto).
    congruence.
  - destruct (decide (TypeInfo.get_tag gi_type = TypeTag.INTERFACE))
      as [Htag|Htag].
    + destruct (TypeInfo.get_interface gi_type) as [iface|].
      * destruct (negb _); split; try done; intros (_ & _ & ?); done.
      * split; [by intros [= <-]|]. by intros (-> & _).
    + split; [done|]. intros (_ & ? & _). done.
Qed.

Lemma out_arg_str_Raise arg e :
  out_arg_str arg = Raise e
  ↔ e = AttributeError ∧ no_interface (ArgInfo.get_type arg).
Proof.
  rewrite <- hint_Raise. unfold out_arg_str.
  destruct (_get_pytype_hint (ArgInfo.get_type arg)) as [hint|e'];
    cbn [mbind result_bind]; [done|].
  split; by intros [= ->].
Qed.

(** A generator expression raises what its first failing element raises. *)
Lemma map_result_Raise {A B : Type} (f : A → result B) (P : A → Prop)
    (e0 : exn) (l : list A) (e : exn) :
  (∀ x e, f x = Raise e ↔ e = e0 ∧ P x) →
  map_result f l = Raise e ↔ e = e0 ∧ Exists P l.
Proof.
  intros Hf. induction l as [|x l IH]; cbn [map_result].
  - split; [done|]. intros (_ & Hex). by apply Exists_nil in Hex.
  - rewrite Exists_cons.
    destruct (f x) as [y|e'] eqn:Hfx; cbn [mbind result_bind].
    + assert (¬ P x) as Hx.
      { intros HP. assert (f x = Raise e0) as Hr by (by apply Hf). congruence. }
      destruct (map_result f l) as [ys|e'']; cbn [mbind result_bind].
      * split; [done|]. intros (He & [?|Hex]); [done|].
        assert (Ok ys = Raise e) as Habs by (apply IH; done). done.
      * split.
        -- intros Hr. apply IH in Hr. tauto.
        -- intros (He & [?|Hex]); [done|]. by apply IH.
    + apply Hf in Hfx as (-> & HP). split.
      * intros [= <-]. tauto.
      * by intros (-> & _).
Qed.

(** The loop raises exactly when a kept argument has a hint that raises. *)
Lemma in_args_loop_Raise ignore_indices user_data_indices in_args :
  ∀ (i : nat) (in_args_strs : list string) (e : exn),
    in_args_loop ignore_indices user_data_indices i in_args in_args_strs
    = Raise e
    ↔ e = AttributeError
      ∧ Exists (λ p, no_interface (ArgInfo.get_type p.2))
          (kept_from ignore_indices i in_args).
Proof.
  induction in_args as [|arg in_args IH]; intros i in_args_strs e.
  - cbn. split; [done|]. intros (_ & Hex). by apply Exists_nil in Hex.
  - cbn [in_args_loop].
    destruct (decide (Z.of_nat i ∈ ignore_indices)) as [Hin|Hin].
    + rewrite (bool_decide_eq_true_2 _ Hin).
      rewrite kept_from_cons_ignored by done. apply IH.
    + rewrite (bool_decide_eq_false_2 _ Hin).
      rewrite kept_from_cons_kept by done. rewrite Exists_cons. cbn [snd].
      destruct (_get_pytype_hint (ArgInfo.get_type arg)) as [hint|e'] eqn:Hhint;
        cbn [mbind result_bind].
      * rewrite IH. split; [tauto|].
        intros (He & [Hbad|Hex]); [|done].
        assert (_get_pytype_hint (ArgInfo.get_type arg) = Raise AttributeError)
          as Hr by (by apply hint_Raise).
        congruence.
      * apply hint_Raise in Hhint as (-> & Hbad). split.
        -- intros [= <-]. tauto.
        -- by intros (-> & _).
Qed.

(** X1: with accessors that answer, the formatter raises exactly when an
    in-argument at a position that is not in [ignore_indices], or an
    out-argument, has the interface tag and no interface object, and the
    exception is then [AttributeError]. *)
Theorem signature_raises (info : CallableInfo.t) (e : exn) :
  let in_args := (split_function_info_args info).1 in
  let out_args := (split_function_info_args info).2 in
  let kept := kept_from (companion_indices in_args).1 0 in_args in
  _generate_callable_info_function_signature info = Raise e
  ↔ e = AttributeError
    ∧ (Exists (λ p, no_interface (ArgInfo.get_type p.2)) kept
       ∨ Exists (λ arg, no_interface (ArgInfo.get_type arg)) out_args).
Proof.
  intros in_args out_args kept. subst in_args out_args kept.
  unfold _generate_callable_info_function_signature.
  destruct (split_function_info_args info) as [in_args out_args].
  cbn [fst snd].
  pose proof (in_args_loop_Raise (companion_indices in_args).1
                (companion_indices in_args).2 in_args 0
                (implicit_args info)) as Hloop.
  unfold positional_args.
  destruct (companion_indices in_args) as [ignore_indices user_data_indices].
  cbn [fst snd] in *.
  destruct (in_args_loop _ _ _ _ _) as [in_strs|e'];
    cbn [mbind result_bind].
  - assert (¬ Exists (λ p, no_interface (ArgInfo.get_type p.2))
                (kept_from ignore_indices 0 in_args)) as Hkept.
    { intros Hex. assert (Ok in_strs = Raise AttributeError) as Habs
        by (by apply Hloop). done. }
    destruct out_args as [|arg out_args].
    + split; [done|]. intros (_ & [?|Hex]); [done|].
      by apply Exists_nil in Hex.
    + destruct (map_result out_arg_str (arg :: out_args)) as [out_strs|e'']
        eqn:Hout; cbn [mbind result_bind].
      * split; [done|]. intros (-> & [?|Hex]); [done|].
        assert (map_result out_arg_str (arg :: out_args) = Raise AttributeError)
          as Habs.
        { apply (map_result_Raise out_arg_str
                   (λ arg, no_interface (ArgInfo.get_type arg)) AttributeError);
            [apply out_arg_str_Raise|done]. }
        congruence.
      * apply (map_result_Raise out_arg_str
                 (λ arg, no_interface (ArgInfo.get_type arg)) AttributeError)
          in Hout as (-> & Hex); [|apply out_arg_str_Raise].
        split.
        -- intros [= <-]. tauto.
        -- by intros (-> & _).
  - destruct (proj1 (Hloop e') eq_refl) as (-> & Hex). split.
    + intros [= <-]. tauto.
    + by intros (-> & _).
Qed.

(** ** Companion indices that are no position *)

Lemma length_enumerate_from {A : Type} (l : list A) (i : nat) :
  length (enumerate_from i l) = length l.
Proof.
  revert i. induction l as [|x l IH]; intros i; cbn [enumerate_from length].
  - done.
  - by rewrite IH.
Qed.

Lemma filter_all {A : Type} (P : A → Prop) `{!∀ x, Decision (P x)}
    (l : list A) :
  Forall P l → filter P l = l.
Proof.
  induction 1 as [|x l Hx _ IH]; [done|].
  rewrite filter_cons_True by done. by rewrite IH.
Qed.

(** X2: companion indices that are the sentinel, negative, or past the end
    of the in-list suppress nothing and raise nothing: every in-argument is
    kept, and the positional list has one string for each besides the
    implicit parameter. *)
Theorem out_of_range_indices_suppress_nothing (info : CallableInfo.t) :
  let in_args := (split_function_info_args info).1 in
  Forall (λ arg,
            out_of_range (length in_args) (ArgInfo.get_destroy arg)
            ∧ out_of_range (length in_args)
                (TypeInfo.get_array_length (ArgInfo.get_type arg)))
    in_args →
  kept_from (companion_indices in_args).1 0 in_args = enumerate_from 0 in_args
  ∧ (∀ strs,
       positional_args info in_args = Ok strs →
       length strs = (length (implicit_args info) + length in_args)%nat).
Proof.
  intros in_args Hrange.
  assert (kept_from (companion_indices in_args).1 0 in_args
          = enumerate_from 0 in_args) as Hkept.
  { unfold kept_from. apply filter_all. apply Forall_forall.
    intros [i arg] Hin. cbn [fst].
    apply elem_of_enumerate_from in Hin as (n & -> & Hn).
    apply lookup_lt_Some in Hn.
    intros (arg' & Harg' & Hz)%elem_of_ignore_indices.
    rewrite Forall_forall in Hrange.
    destruct (Hrange arg' Harg') as [Hd Hl].
    unfold out_of_range in Hd, Hl.
    destruct Hz as [Hz|Hz]; rewrite <- Hz in *; lia. }
  split; [exact Hkept|].
  intros strs Hstrs.
  apply positional_args_Ok in Hstrs as (hints & Hhints & ->).
  rewrite length_app. f_equal.
  rewrite length_zip_with_l_eq by (by eapply Forall2_length).
  rewrite Hkept. apply length_enumerate_from.
Qed.

(** [far_info] has the indices -1, 7 and 2 on a list of two in-arguments. *)
Lemma out_of_range_indices_suppress_nothing_witness :
  kept_from (companion_indices (split_function_info_args far_info).1).1 0
    (split_function_info_args far_info).1
  = enumerate_from 0 (split_function_info_args far_info).1
  ∧ (∀ strs,
       positional_args far_info (split_function_info_args far_info).1
       = Ok strs →
       length strs
       = (length (implicit_args far_info)
          + length (split_function_info_args far_info).1)%nat).
Proof.
  apply (out_of_range_indices_suppress_nothing far_info).
  change (split_function_info_args far_info).1
    with (CallableInfo.get_arguments far_info).
  repeat constructor; unfold out_of_range; cbn; lia.
Defined.

(** ** When the hint of an in-argument is left out *)

Lemma dotted_name_not_void (namespace name : string) :
  namespace +:+ "." +:+ name ≠ "void".
Proof.
  destruct namespace as [|c1 [|c2 [|c3 [|c4 [|c5 namespace]]]]];
    cbv [String.append]; fold String.append; discriminate.
Qed.

Lemma class_name_not_void (ty : py_type) : __name__ ty ≠ "void".
Proof. destruct ty; discriminate. Qed.

(** X3: the resolver answers void only through the fall-back: the tag has
    no class in the table and the descriptor's own tag string is void.  A
    class name or a Namespace.Name is never void, so the hint of such an
    in-argument is never left out. *)
Theorem hint_void_only_from_tag_string (gi_type : TypeInfo.t) :
  _get_pytype_hint gi_type = Ok "void" →
  dict_get _type_tag_to_py_type (TypeInfo.get_tag gi_type) None = None
  ∧ TypeInfo.get_tag_as_string gi_type = "void".
Proof.
  unfold _get_pytype_hint.
  destruct (dict_get _ _ _) as [ty|].
  - intros [= Hname]. by apply class_name_not_void in Hname.
  - intros Hvoid. split; [done|]. revert Hvoid.
    destruct (decide (TypeInfo.get_tag gi_type = TypeTag.INTERFACE)).
    + destruct (TypeInfo.get_interface gi_type) as [iface|]; [|done].
      destruct (negb _).
      * by intros [= ->].
      * intros [= Hname]. by apply dotted_name_not_void in Hname.
    + by intros [= ->].
Qed.

Lemma hint_void_only_from_tag_string_witness :
  dict_get _type_tag_to_py_type (TypeInfo.get_tag void_type) None = None
  ∧ TypeInfo.get_tag_as_string void_type = "void".
Proof.
  apply (hint_void_only_from_tag_string void_type). reflexivity.
Defined.

(** ** A callable without arguments *)

(** X4: for a callable without arguments the formatter raises nothing and
    returns the name followed by [()], [(self)] or [(cls)], according to the
    implicit parameter. *)
Theorem no_arguments_signature (info : CallableInfo.t) :
  CallableInfo.get_arguments info = [] →
  ∃ parameter,
    parameter ∈ [""; "self"; "cls"]
    ∧ String.concat ", " (implicit_args info) = parameter
    ∧ _generate_callable_info_function_signature info
      = Ok (CallableInfo.get_name info +:+ "(" +:+ parameter +:+ ")").
Proof.
  intros Hargs.
  exists (String.concat ", " (implicit_args info)). split_and!.
  - rewrite implicit_args_cases. rewrite !elem_of_cons.
    destruct (CallableInfo.class info); cbn; [tauto| |tauto].
    destruct (CallableInfo.is_method info); cbn; [tauto|].
    destruct (CallableInfo.is_constructor info); cbn; tauto.
  - done.
  - unfold _generate_callable_info_function_signature.
    unfold split_function_info_args. rewrite Hargs. reflexivity.
Qed.

Lemma no_arguments_signature_witness :
  ∃ parameter,
    parameter ∈ [""; "self"; "cls"]
    ∧ String.concat ", "
        (implicit_args (CallableInfo.mk FunctionInfo "new" [] false true))
      = parameter
    ∧ _generate_callable_info_function_signature
        (CallableInfo.mk FunctionInfo "new" [] false true)
      = Ok ("new" +:+ "(" +:+ parameter +:+ ")").
Proof.
  apply (no_arguments_signature
           (CallableInfo.mk FunctionInfo "new" [] false true)).
  reflexivity.
Defined.

(** ** More on [split_function_info_args] *)

(** X5: splitting an argument sequence that is two sequences one after the
    other gives the two in-lists one after the other, and the two out-lists
    likewise. *)
Theorem split_function_info_args_app (info info1 info2 : CallableInfo.t) :
  CallableInfo.get_arguments info
  = CallableInfo.get_arguments info1 ++ CallableInfo.get_arguments info2 →
  split_function_info_args info
  = ((split_function_info_args info1).1 ++ (split_function_info_args info2).1,
     (split_function_info_args info1).2 ++ (split_function_info_args info2).2).
Proof.
  intros Hargs. rewrite !split_filter. cbn [fst snd].
  by rewrite Hargs, !filter_app.
Qed.

(** [method_info], cut after its second argument. *)
Lemma split_function_info_args_app_witness :
  split_function_info_args method_info
  = ((split_function_info_args
        (plain_function "first"
           (take 2 (CallableInfo.get_arguments method_info)))).1
     ++ (split_function_info_args
           (plain_function "rest"
              (drop 2 (CallableInfo.get_arguments method_info)))).1,
     (split_function_info_args
        (plain_function "first"
           (take 2 (CallableInfo.get_arguments method_info)))).2
     ++ (split_function_info_args
           (plain_function "rest"
              (drop 2 (CallableInfo.get_arguments method_info)))).2).
Proof.
  apply (split_function_info_args_app method_info
           (plain_function "first"
              (take 2 (CallableInfo.get_arguments method_info)))
           (plain_function "rest"
              (drop 2 (CallableInfo.get_arguments method_info)))).
  reflexivity.
Defined.

Lemma length_filter_in_out (args : list ArgInfo.t) :
  (length (filter is_in args) + length (filter is_out args)
   = length (filter (λ arg, known_direction (ArgInfo.get_direction arg)) args)
     + length (filter is_inout args))%nat.
Proof.
  induction args as [|arg args IH]; [done|].
  rewrite !filter_cons.
  destruct (decide (is_in arg)) as [Hi|Hi], (decide (is_out arg)) as [Ho|Ho],
    (decide (known_direction (ArgInfo.get_direction arg))) as [Hk|Hk],
    (decide (is_inout arg)) as [Hio|Hio].
  all: unfold is_in, is_out, is_inout, known_direction in Hi, Ho, Hk, Hio.
  all: try (exfalso; destruct (ArgInfo.get_direction arg);
            intuition congruence).
  all: cbn [length]; lia.
Qed.

(** X6: the two lists have together as many elements as there are arguments
    of direction IN, OUT or INOUT, plus one more for each INOUT argument;
    arguments of any other direction are not counted. *)
Theorem split_function_info_args_count (info : CallableInfo.t) :
  let args := CallableInfo.get_arguments info in
  (length (split_function_info_args info).1
   + length (split_function_info_args info).2
   = length (filter (λ arg, known_direction (ArgInfo.get_direction arg)) args)
     + length (filter is_inout args))%nat.
Proof.
  intros args. rewrite split_filter. cbn [fst snd].
  apply length_filter_in_out.
Qed.



(** ** The index sets and the order of the in-arguments *)

(** X8: the two index sets do not depend on the order of the in-arguments:
    in-lists that are permutations of each other give the same
    [ignore_indices] and the same [user_data_indices]. *)
Theorem companion_indices_permutation (in_args1 in_args2 : list ArgInfo.t) :
  in_args1 ≡ₚ in_args2 →
  companion_indices in_args1 = companion_indices in_args2.
Proof.
  intros Hperm.
  rewrite (surjective_pairing (companion_indices in_args1)).
  rewrite (surjective_pairing (companion_indices in_args2)).
  f_equal; apply leibniz_equiv; intros z.
  - rewrite !elem_of_ignore_indices.
    split; intros (arg & Harg & Hz); exists arg; split; try done.
    + by rewrite <- Hperm.
    + by rewrite Hperm.
  - rewrite !elem_of_user_data_indices.
    split; intros (arg & Harg & Hz); exists arg; split; try done.
    + by rewrite <- Hperm.
    + by rewrite Hperm.
Qed.

Lemma companion_indices_permutation_witness :
  companion_indices (CallableInfo.get_arguments closure_info)
  = companion_indices (reverse (CallableInfo.get_arguments closure_info)).
Proof.
  apply (companion_indices_permutation
           (CallableInfo.get_arguments closure_info)
           (reverse (CallableInfo.get_arguments closure_info))).
  symmetry. apply reverse_Permutation.
Defined.

(** ** Calls of the registry one after the other *)

Lemma set_each_snoc funcs func st :
  set_each (funcs ++ [func]) st
  = set_doc_string_generator func (set_each funcs st).
Proof. unfold set_each. by rewrite fold_left_app. Qed.

(** X7: after any number of calls of [set_doc_string_generator] the slot
    holds the value of the last call, and the value it held before when
    there was no call; setting the value read before a call brings the
    module's state back. *)
Theorem registry_last_set_wins :
  (∀ (funcs : list (option generator)) (st : module_state),
     get_doc_string_generator (set_each funcs st)
     = default (get_doc_string_generator st) (last funcs))
  ∧ (∀ (func : option generator) (st : module_state),
       set_doc_string_generator (get_doc_string_generator st)
         (set_doc_string_generator func st)
       = st)
  ∧ (∀ (funcs : list (option generator)) (st : module_state)
       (info : CallableInfo.t),
       last funcs = Some None →
       generate_doc_string (set_each funcs st) info = Raise TypeError).
Proof.
  assert (∀ (funcs : list (option generator)) (st : module_state),
            get_doc_string_generator (set_each funcs st)
            = default (get_doc_string_generator st) (last funcs)) as Hlast.
  { intros funcs st. induction funcs as [|func funcs _] using rev_ind.
    - reflexivity.
    - rewrite set_each_snoc, last_snoc. reflexivity. }
  split_and!.
  - exact Hlast.
  - intros func [slot]. reflexivity.
  - intros funcs st info Hnone.
    pose proof (Hlast funcs st) as Hget. rewrite Hnone in Hget.
    unfold generate_doc_string.
    unfold get_doc_string_generator in Hget. by rewrite Hget.
Qed.

(** A suppressed argument of direction IN with the interface tag and no
    interface object raises nothing: the loop skips it and it is in no
    out-list. *)
Example scenario_suppressed_no_interface :
  _generate_callable_info_function_signature
    (plain_function "name"
       [plain_arg "notify" Direction.IN
          (TypeInfo.mk TypeTag.INTERFACE "interface" (-1) None);
        ArgInfo.mk "callback" Direction.IN widget_type false false 0 (-1)])
  = Ok "name(callback:Gtk.Widget)".
Proof. vm_compute. reflexivity. Qed.

(** In [shifted_info] the destroy index 2 is the position of [notify] in
    the argument sequence; in the in-list [notify] stands at position 1, so
    it is rendered. *)
Example scenario_shifted :
  _generate_callable_info_function_signature shifted_info
  = Ok "watch(callback:Gtk.Widget, notify:Gtk.Widget) -> handle:int".
Proof. vm_compute. reflexivity. Qed.
